(** * SimpleGet: the process-launching NPAPI plugin and the [Complex] fixture

    A shallow embedding of

    - [Plugin/simpleGetPlugin/simpleGetPlugin.cc]
      ([SimpleGetPlugin::callApplication]),
    - [Plugin/simpleGetPlugin/plugin.cc]
      ([NP_GetMIMEDescription], [NP_GetValue]),
    - [Plugin/nixysa/examples/complex/complex.h] (class [Complex]),

    followed by the properties the specification states about them and by
    further properties of the code. *)

From Stdlib Require Import ZArith String Ascii List.
From Stdlib Require Import Floats.SpecFloat.
From stdpp Require Import base option gmap strings.

Local Open Scope string_scope.
Local Open Scope Z_scope.

(* ===================================================================== *)
(** ** C strings *)
(* ===================================================================== *)

(** [std::string::c_str()] hands out the array of [size() + 1] characters
    holding the contents of the string followed by a terminating NUL. *)
Definition c_string := list ascii.

Definition NUL : ascii := Ascii.zero.

Definition c_str (s : string) : c_string :=
  (list_ascii_of_string s ++ [NUL])%list.

(** What a callee that takes a [const char *] reads from such an array: the
    characters in front of the first NUL. *)
Fixpoint read_c_string (buf : c_string) : string :=
  match buf with
  | [] => EmptyString
  | c :: rest =>
      if Ascii.eqb c NUL then EmptyString else String c (read_c_string rest)
  end.

(** A [std::string] with no embedded NUL character. *)
Fixpoint nul_free (s : string) : bool :=
  match s with
  | EmptyString => true
  | String c s' => negb (Ascii.eqb c NUL) && nul_free s'
  end.

(* ===================================================================== *)
(** ** simpleGetPlugin.cc *)
(* ===================================================================== *)

Module SimpleGetPlugin.

Definition MSG_OK : string := "".
Definition MSG_NO_COMMAND_PROCESSOR : string :=
  "the sytem does not support command invocation".
Definition MSG_INVALID_COMMAND : string := "invalid command".

(** The preprocessor symbols the translation unit tests: [true] when the
    symbol is defined for the build. *)
Record Target := mkTarget {
  OS_WINDOWS : bool;
  OS_LINUX : bool;
  OS_MACOSX : bool
}.

(** A Windows-family build defines [OS_WINDOWS]. *)
Definition windows_family (t : Target) : Prop := OS_WINDOWS t = true.

(** A POSIX-family build defines [OS_LINUX] or [OS_MACOSX], and not
    [OS_WINDOWS]. *)
Definition posix_family (t : Target) : Prop :=
  OS_WINDOWS t = false ∧ OS_LINUX t || OS_MACOSX t = true.

Definition windows_target : Target := mkTarget true false false.
Definition linux_target : Target := mkTarget false true false.

(** The calls into the operating system.  [CreateProcess] carries its
    first two arguments; the remaining ones are the same at the only
    call site (six [NULL]s, a zeroed [STARTUPINFO] with [cb] set, a zeroed
    [PROCESS_INFORMATION]). *)
Inductive os_call :=
| CreateProcess (lpApplicationName lpCommandLine : c_string)
| system (command : c_string).

(** The world outside the plugin: the calls made so far, and what the
    operating system answers to the next one ([BOOL] for [CreateProcess],
    [int] for [system]); the answer may depend on everything that
    happened before. *)
Record World := mkWorld {
  os_answer : list os_call → os_call → Z;
  os_log : list os_call
}.

(** Computations that call into the operating system. *)
Definition OS (A : Type) : Type := World → A * World.

#[export] Instance OS_ret : MRet OS := λ A a w, (a, w).

#[export] Instance OS_bind : MBind OS :=
  λ A B k m w, let '(a, w') := m w in k a w'.

Definition call (c : os_call) : OS Z :=
  λ w, (os_answer w (os_log w) c,
        mkWorld (os_answer w) (os_log w ++ [c])%list).

(** [#ifdef]: the guarded statements are part of the function only when
    the condition holds for the build. *)
Definition ifdef (defined : bool) (body : OS unit) : OS unit :=
  if defined then body else mret tt.

(** [std::string SimpleGetPlugin::callApplication(std::string application,
    std::string parameters)].  The Windows block assigns to [parameters],
    so the value of that variable is threaded to the POSIX block. *)
Definition callApplication (t : Target) (application parameters : string)
  : OS string :=
  parameters ←
    (if OS_WINDOWS t then
       let parameters := " " +:+ parameters in
       call (CreateProcess (c_str application) (c_str parameters));;
       mret parameters
     else mret parameters);
  ifdef (OS_LINUX t || OS_MACOSX t)
    (call (system (c_str (application +:+ " " +:+ parameters +:+ " &")));;
     mret tt);;
  mret MSG_OK.

(** The value a call returns, and the operating-system calls it makes. *)
Definition returned {A} (m : OS A) (w : World) : A := (m w).1.

Definition calls_made {A} (m : OS A) (w : World) : list os_call :=
  drop (length (os_log w)) (os_log (m w).2).

(** The command lines handed to process creation, and the commands handed
    to the shell, among a list of calls. *)
Definition command_lines (cs : list os_call) : list c_string :=
  flat_map (λ c, match c with
                 | CreateProcess _ cl => [cl]
                 | system _ => []
                 end) cs.

Definition shell_commands (cs : list os_call) : list c_string :=
  flat_map (λ c, match c with
                 | CreateProcess _ _ => []
                 | system cmd => [cmd]
                 end) cs.

(** Every string handed to the operating system by a list of calls. *)
Definition os_arguments (cs : list os_call) : list c_string :=
  flat_map (λ c, match c with
                 | CreateProcess app cl => [app; cl]
                 | system cmd => [cmd]
                 end) cs.

(** A world in which nothing has happened yet and every call answers
    [r]. *)
Definition fresh_world (r : Z) : World := mkWorld (λ _ _, r) [].

End SimpleGetPlugin.

(* ===================================================================== *)
(** ** plugin.cc *)
(* ===================================================================== *)

Module Plugin.

(** A [const char *]: null, or pointing at a string literal, which is
    identified with its characters. *)
Inductive char_ptr :=
| NULL
| Literal (s : string).

(** The memory the host owns: the [const char *] cells [NP_GetValue] is
    handed the addresses of. *)
Abbreviation Memory := (gmap Z char_ptr).

Definition NPP := Z.
Definition NPPVariable := Z.
Definition NPError := Z.

(** [*static_cast<const char **>(value) = p;]: the source does not test
    the pointer; the host passes the address of a cell it owns. *)
Definition store (value : Z) (p : char_ptr) (m : Memory) : Memory :=
  <[value := p]> m.

(** [const char *NP_GetMIMEDescription(void)]: reads and writes no
    memory. *)
Definition NP_GetMIMEDescription (m : Memory) : char_ptr * Memory :=
  (Literal
     "application/x-simplegetplugin::Connects the Simple Get extesion to the download managers",
   m).

(** One entry of a MIME description has the shape
    [type:extensions:description]; with an empty list of extensions the
    type is the segment in front of the first ["::"]. *)
Definition segment_before (sep s : string) : option string :=
  n ← index 0 sep s; Some (substring 0 n s).

Definition mime_type (p : char_ptr) : option string :=
  match p with
  | NULL => None
  | Literal s => segment_before "::" s
  end.

(** The rest of such an entry, behind the first occurrence of the
    separator: with an empty list of extensions, the description. *)
Definition segment_after (sep s : string) : option string :=
  n ← index 0 sep s;
  Some (substring (n + String.length sep)
          (String.length s - (n + String.length sep)) s).

Definition mime_description (p : char_ptr) : option string :=
  match p with
  | NULL => None
  | Literal s => segment_after "::" s
  end.

Section npapi_h.

(** The enumerators and error codes of [<npapi.h>], which is not part
    of the repository: the two [NPPVariable] enumerators the [switch]
    names and the two [NPError] codes it returns. *)
Variables NPPVpluginNameString NPPVpluginDescriptionString : NPPVariable.
Variables NPERR_NO_ERROR NPERR_INVALID_PARAM : NPError.

(** [NPError NP_GetValue(NPP instance, NPPVariable variable,
    void *value)] *)
Definition NP_GetValue (instance : NPP) (variable : NPPVariable)
    (value : Z) (m : Memory) : NPError * Memory :=
  if decide (variable = NPPVpluginNameString) then
    (NPERR_NO_ERROR, store value (Literal "Simple Get Plugin") m)
  else if decide (variable = NPPVpluginDescriptionString) then
    (NPERR_NO_ERROR,
     store value
       (Literal "Connects the Simple Get extesion to the download managers")
       m)
  else
    (NPERR_INVALID_PARAM, m).

End npapi_h.

End Plugin.

(* ===================================================================== *)
(** ** complex.h *)
(* ===================================================================== *)

Module ComplexH.

(** [float]: IEEE 754 binary32, as the values of [spec_float] (zeros,
    infinities, NaN and finite numbers). *)
Definition float := spec_float.

(** The literal [0.f]. *)
Definition zero_f : float := S754_zero false.

(** [class Complex], with its two private members. *)
Record Complex := mkComplex {
  real_ : float;
  imaginary_ : float
}.

(** [Complex() : real_(0.f), imaginary_(0.f) { }] *)
Definition Complex_default : Complex := mkComplex zero_f zero_f.

(** [Complex(float real, float imaginary)] *)
Definition Complex_of (real imaginary : float) : Complex :=
  mkComplex real imaginary.

(** [float real() const { return real_; }] *)
Definition real (this : Complex) : float := real_ this.

(** [void set_real(float value) { real_ = value; }]: the object after
    the call. *)
Definition set_real (value : float) (this : Complex) : Complex :=
  mkComplex value (imaginary_ this).

(** [float imaginary() const { return imaginary_; }] *)
Definition imaginary (this : Complex) : float := imaginary_ this.

(** [void set_imaginary(float value) { imaginary_ = value; }]: the object
    after the call. *)
Definition set_imaginary (value : float) (this : Complex) : Complex :=
  mkComplex (real_ this) value.

(** Arithmetic on [float]: IEEE 754 binary32 (24 bits of precision, the
    exponent of the infinities 128), rounding to nearest, ties to even, each
    operation of an expression rounded on its own. *)
Definition prec : Z := 24.
Definition emax : Z := 128.

Definition fadd : float → float → float := SFadd prec emax.
Definition fsub : float → float → float := SFsub prec emax.
Definition fmul : float → float → float := SFmul prec emax.
Definition sqrtf : float → float := SFsqrt prec emax.

(** [float norm2() const
      { return real_*real_ + imaginary_*imaginary_; }] *)
Definition norm2 (this : Complex) : float :=
  fadd (fmul (real_ this) (real_ this))
       (fmul (imaginary_ this) (imaginary_ this)).

(** [float norm() const { return sqrtf(norm2()); }] *)
Definition norm (this : Complex) : float := sqrtf (norm2 this).

(** [Complex add(const Complex &other)] *)
Definition add (this other : Complex) : Complex :=
  Complex_of (fadd (real_ this) (real_ other))
             (fadd (imaginary_ this) (imaginary_ other)).

(** [Complex mul(const Complex &other)] *)
Definition mul (this other : Complex) : Complex :=
  Complex_of
    (fsub (fmul (real_ this) (real_ other))
          (fmul (imaginary_ this) (imaginary_ other)))
    (fadd (fmul (real_ this) (imaginary_ other))
          (fmul (imaginary_ this) (real_ other))).

(** The sign bit of a float that is not NaN. *)
Definition sign_bit (x : float) : option bool :=
  match x with
  | S754_zero s | S754_infinity s | S754_finite s _ _ => Some s
  | S754_nan => None
  end.

(** The float an integer constant converts to. *)
Definition float_of_Z (z : Z) : float := binary_normalize prec emax z 0 false.

End ComplexH.

(* ===================================================================== *)
(** ** Properties of [callApplication] *)
(* ===================================================================== *)

Import SimpleGetPlugin.

(** Reading back the array [c_str] hands out gives the string itself as
    long as it has no embedded NUL. *)
Lemma read_c_str (s : string) :
  nul_free s = true → read_c_string (c_str s) = s.
Proof.
  unfold c_str.
  induction s as [|c s IH]; cbn [list_ascii_of_string app read_c_string nul_free].
  - intros _. reflexivity.
  - intros [Hc Hs]%andb_prop.
    destruct (Ascii.eqb c NUL); [discriminate Hc|].
    now rewrite (IH Hs).
Qed.

Lemma nul_free_append (s1 s2 : string) :
  nul_free (s1 +:+ s2) = nul_free s1 && nul_free s2.
Proof.
  induction s1 as [|c s1 IH]; [reflexivity|].
  change (String c s1 +:+ s2) with (String c (s1 +:+ s2)).
  cbn [nul_free]. now rewrite IH, andb_assoc.
Qed.

(** One run of [callApplication]: the value is [MSG_OK], the answers of the
    operating system are ignored, and the log grows by the call of each
    block that is compiled in. *)
Lemma callApplication_run t application parameters w :
  callApplication t application parameters w =
  (MSG_OK,
   mkWorld (os_answer w)
     (os_log w ++
      ((if OS_WINDOWS t
        then [CreateProcess (c_str application) (c_str (" " +:+ parameters))]
        else []) ++
       (if OS_LINUX t || OS_MACOSX t
        then [system (c_str (application +:+ " " +:+
                             (if OS_WINDOWS t then " " +:+ parameters
                              else parameters) +:+ " &"))]
        else [])))%list).
Proof.
  unfold callApplication, ifdef, call.
  unfold mbind, mret, OS_bind, OS_ret.
  destruct t as [[] [] []], w as [answer log];
    cbn; rewrite <- ?app_assoc, ?app_nil_r; reflexivity.
Qed.

Lemma calls_made_run {A} (m : OS A) (w : World) (a : A) (cs : list os_call) :
  m w = (a, mkWorld (os_answer w) (os_log w ++ cs)%list) →
  calls_made m w = cs.
Proof.
  intros Hrun. unfold calls_made. rewrite Hrun. cbn.
  apply drop_app_length.
Qed.

Lemma calls_made_windows t application parameters w :
  OS_WINDOWS t = true → OS_LINUX t || OS_MACOSX t = false →
  calls_made (callApplication t application parameters) w =
  [CreateProcess (c_str application) (c_str (" " +:+ parameters))].
Proof.
  intros Hw Hp. erewrite calls_made_run by apply callApplication_run.
  now rewrite Hw, Hp.
Qed.

Lemma calls_made_posix t application parameters w :
  OS_WINDOWS t = false → OS_LINUX t || OS_MACOSX t = true →
  calls_made (callApplication t application parameters) w =
  [system (c_str (application +:+ " " +:+ parameters +:+ " &"))].
Proof.
  intros Hw Hp. erewrite calls_made_run by apply callApplication_run.
  now rewrite Hw, Hp.
Qed.

(** C1. Whatever the build, the two argument strings and the answers of the
    operating system, [callApplication] returns the empty string, the fixed
    OK status [MSG_OK]. *)
Theorem callApplication_returns_OK
    (t : Target) (application parameters : string) (w : World) :
  returned (callApplication t application parameters) w = ""
  ∧ MSG_OK = "".
Proof.
  unfold returned. rewrite callApplication_run. split; reflexivity.
Qed.

(** The scenario of a binary that does not exist: every answer of the
    operating system is a failure ([-1] from [system], [0] from
    [CreateProcess]) and the status is still empty. *)
Example nonexistent_binary_posix :
  returned (callApplication linux_target "/nonexistent/binary" "")
    (fresh_world (-1)) = "".
Proof. reflexivity. Qed.

Example nonexistent_binary_windows :
  returned (callApplication windows_target "/nonexistent/binary" "")
    (fresh_world 0) = "".
Proof. reflexivity. Qed.

(** C2. On a POSIX-family build, the one call [callApplication] makes is
    [system], on the [c_str()] of [application + " " + parameters + " &"]. *)
Theorem callApplication_posix_command
    (t : Target) (application parameters : string) (w : World) :
  posix_family t →
  calls_made (callApplication t application parameters) w =
    [system (c_str (application +:+ " " +:+ parameters +:+ " &"))]
  ∧ shell_commands (calls_made (callApplication t application parameters) w) =
    [c_str (application +:+ " " +:+ parameters +:+ " &")].
Proof.
  intros [Hw Hp]. rewrite calls_made_posix by assumption.
  split; reflexivity.
Qed.

Lemma callApplication_posix_command_witness :
  posix_family linux_target
  ∧ calls_made
      (callApplication linux_target "firefox" "-url http://example.com")
      (fresh_world 0) =
    [system (c_str "firefox -url http://example.com &")]
  ∧ shell_commands
      (calls_made
         (callApplication linux_target "firefox" "-url http://example.com")
         (fresh_world 0)) =
    [c_str "firefox -url http://example.com &"].
Proof.
  split.
  - split; reflexivity.
  - apply (callApplication_posix_command linux_target
             "firefox" "-url http://example.com" (fresh_world 0)).
    split; reflexivity.
Defined.

(** X2. When neither argument has an embedded NUL, the shell reads the whole
    concatenation out of the array it is handed. *)
Corollary posix_command_read
    (t : Target) (application parameters : string) (w : World) :
  posix_family t →
  nul_free application = true → nul_free parameters = true →
  read_c_string <$>
    shell_commands (calls_made (callApplication t application parameters) w) =
  [application +:+ " " +:+ parameters +:+ " &"].
Proof.
  intros [Hw Hp] Ha Hparams. rewrite calls_made_posix by assumption.
  cbn [shell_commands flat_map app fmap list_fmap].
  rewrite read_c_str; [reflexivity|].
  now rewrite !nul_free_append, Ha, Hparams.
Qed.

(** C3. On a Windows-family build, the command line [callApplication] hands
    to [CreateProcess] is the [c_str()] of [" " + parameters]; the
    application goes in the first argument, unchanged. *)
Theorem callApplication_windows_parameters
    (t : Target) (application parameters : string) (w : World) :
  windows_family t →
  command_lines (calls_made (callApplication t application parameters) w) =
    [c_str (" " +:+ parameters)]
  ∧ CreateProcess (c_str application) (c_str (" " +:+ parameters))
    ∈ calls_made (callApplication t application parameters) w.
Proof.
  unfold windows_family. intros Hw.
  erewrite calls_made_run by apply callApplication_run.
  rewrite Hw. destruct (OS_LINUX t || OS_MACOSX t); cbn.
  - split; [reflexivity | apply list_elem_of_here].
  - split; [reflexivity | apply list_elem_of_here].
Qed.

Lemma callApplication_windows_parameters_witness :
  windows_family windows_target
  ∧ command_lines
      (calls_made (callApplication windows_target "notepad.exe" "file.txt")
         (fresh_world 1)) =
    [c_str " file.txt"]
  ∧ CreateProcess (c_str "notepad.exe") (c_str " file.txt")
    ∈ calls_made (callApplication windows_target "notepad.exe" "file.txt")
        (fresh_world 1).
Proof.
  split.
  - reflexivity.
  - apply (callApplication_windows_parameters windows_target
             "notepad.exe" "file.txt" (fresh_world 1)).
    reflexivity.
Defined.

(** C4. Of the three messages only [MSG_OK] comes back: the value
    [callApplication] returns is [MSG_OK], it is neither
    [MSG_NO_COMMAND_PROCESSOR] nor [MSG_INVALID_COMMAND], and it is the same
    under every other behaviour of the operating system, so that a failed
    process creation does not show in it. *)
Theorem callApplication_only_OK
    (t : Target) (application parameters : string) (w : World) :
  returned (callApplication t application parameters) w = MSG_OK
  ∧ returned (callApplication t application parameters) w
      ≠ MSG_NO_COMMAND_PROCESSOR
  ∧ returned (callApplication t application parameters) w
      ≠ MSG_INVALID_COMMAND
  ∧ ∀ answer : list os_call → os_call → Z,
      returned (callApplication t application parameters)
        (mkWorld answer (os_log w))
      = returned (callApplication t application parameters) w.
Proof.
  unfold returned. rewrite callApplication_run. cbn [fst].
  repeat split; try discriminate.
  intros answer. now rewrite callApplication_run.
Qed.

(** C5, as the specification states it, fails: on a Windows build the call
    [callApplication("notepad.exe", "file.txt")] does not hand the command
    line ["notepad.exe  file.txt"] to process creation. *)
Lemma notepad_command_line_counterexample :
  ¬ (c_str "notepad.exe  file.txt"
       ∈ command_lines
           (calls_made
              (callApplication windows_target "notepad.exe" "file.txt")
              (fresh_world 1))
     ∧ returned (callApplication windows_target "notepad.exe" "file.txt")
         (fresh_world 1) = "").
Proof.
  intros [Hin _].
  apply list_elem_of_In in Hin. cbn in Hin.
  destruct Hin as [Heq | []]. discriminate Heq.
Qed.

(** That string is no argument of any call made there, and putting the
    application in front of the command line gives one space, not two. *)
Example notepad_arguments :
  (c_str "notepad.exe  file.txt"
     ∉ os_arguments
         (calls_made (callApplication windows_target "notepad.exe" "file.txt")
            (fresh_world 1)))
  ∧ ("notepad.exe" +:+ (" " +:+ "file.txt")) = "notepad.exe file.txt".
Proof.
  split; [|reflexivity].
  intros Hin. apply list_elem_of_In in Hin. cbn in Hin.
  destruct Hin as [Heq | [Heq | []]]; discriminate Heq.
Qed.

(** C5, amended. On a Windows build, [callApplication("notepad.exe",
    "file.txt")] makes one call, [CreateProcess], with the application name
    ["notepad.exe"] and the command line [" file.txt"], and returns [""]. *)
Theorem callApplication_notepad (w : World) :
  calls_made (callApplication windows_target "notepad.exe" "file.txt") w =
    [CreateProcess (c_str "notepad.exe") (c_str " file.txt")]
  ∧ command_lines
      (calls_made (callApplication windows_target "notepad.exe" "file.txt") w)
    = [c_str " file.txt"]
  ∧ read_c_string (c_str " file.txt") = " file.txt"
  ∧ returned (callApplication windows_target "notepad.exe" "file.txt") w = "".
Proof.
  rewrite calls_made_windows by reflexivity.
  unfold returned. rewrite callApplication_run.
  repeat split; reflexivity.
Qed.

(** C9. The value [callApplication] returns does not depend on anything:
    two calls, on any builds, with any arguments and in any worlds, return
    equal strings. *)
Theorem callApplication_return_constant
    (t1 t2 : Target) (a1 p1 a2 p2 : string) (w1 w2 : World) :
  returned (callApplication t1 a1 p1) w1 =
  returned (callApplication t2 a2 p2) w2.
Proof.
  unfold returned. now rewrite !callApplication_run.
Qed.

(* ===================================================================== *)
(** ** Properties of the NPAPI entry points *)
(* ===================================================================== *)

Import Plugin.

Section NP_GetValue_properties.

Variables NPPVpluginNameString NPPVpluginDescriptionString : NPPVariable.
Variables NPERR_NO_ERROR NPERR_INVALID_PARAM : NPError.

(** The case labels of one [switch] are distinct. *)
Hypothesis case_labels_distinct :
  NPPVpluginNameString ≠ NPPVpluginDescriptionString.

Local Abbreviation GetValue :=
  (NP_GetValue NPPVpluginNameString NPPVpluginDescriptionString
     NPERR_NO_ERROR NPERR_INVALID_PARAM).

(** C6. [NP_GetValue] reports the metadata: asked for
    [NPPVpluginNameString] it stores a pointer to ["Simple Get Plugin"]
    in the cell [value] points at and returns [NPERR_NO_ERROR]; asked for
    [NPPVpluginDescriptionString] it stores a pointer to the description
    and returns [NPERR_NO_ERROR]; in both cases the other cells keep
    their contents; asked for any other variable it returns
    [NPERR_INVALID_PARAM]. *)
Theorem NP_GetValue_metadata (instance : NPP) (value : Z) (m : Memory) :
  ((GetValue instance NPPVpluginNameString value m).1 = NPERR_NO_ERROR
   ∧ (GetValue instance NPPVpluginNameString value m).2 !! value =
       Some (Literal "Simple Get Plugin")
   ∧ ∀ a, a ≠ value →
       (GetValue instance NPPVpluginNameString value m).2 !! a = m !! a)
  ∧ ((GetValue instance NPPVpluginDescriptionString value m).1 =
       NPERR_NO_ERROR
     ∧ (GetValue instance NPPVpluginDescriptionString value m).2 !! value =
         Some (Literal
                 "Connects the Simple Get extesion to the download managers")
     ∧ ∀ a, a ≠ value →
         (GetValue instance NPPVpluginDescriptionString value m).2 !! a =
         m !! a)
  ∧ ∀ variable : NPPVariable,
      variable ≠ NPPVpluginNameString →
      variable ≠ NPPVpluginDescriptionString →
      (GetValue instance variable value m).1 = NPERR_INVALID_PARAM.
Proof.
  unfold NP_GetValue, store.
  split; [|split].
  - rewrite decide_True by reflexivity. cbn [fst snd].
    split; [reflexivity|]. split.
    + apply lookup_insert_eq.
    + intros a Ha. now apply lookup_insert_ne.
  - rewrite decide_False
      by (intros Heq; now apply case_labels_distinct).
    rewrite decide_True by reflexivity. cbn [fst snd].
    split; [reflexivity|]. split.
    + apply lookup_insert_eq.
    + intros a Ha. now apply lookup_insert_ne.
  - intros variable Hname Hdesc.
    now rewrite !decide_False by assumption.
Qed.

(** C8. Asked for a variable that is neither [NPPVpluginNameString] nor
    [NPPVpluginDescriptionString], [NP_GetValue] returns
    [NPERR_INVALID_PARAM] and leaves the memory as it was, the cell
    [value] points at included. *)
Theorem NP_GetValue_invalid_frame
    (instance : NPP) (variable : NPPVariable) (value : Z) (m : Memory) :
  variable ≠ NPPVpluginNameString →
  variable ≠ NPPVpluginDescriptionString →
  (GetValue instance variable value m).1 = NPERR_INVALID_PARAM
  ∧ (GetValue instance variable value m).2 = m
  ∧ (GetValue instance variable value m).2 !! value = m !! value.
Proof.
  intros Hname Hdesc. unfold NP_GetValue.
  rewrite !decide_False by assumption.
  repeat split.
Qed.

End NP_GetValue_properties.

(** The two theorems at the values of [<npapi.h>]:
    [NPPVpluginNameString = 1], [NPPVpluginDescriptionString = 2],
    [NPERR_NO_ERROR = 0], [NPERR_INVALID_PARAM = 9]. *)
Lemma NP_GetValue_metadata_witness :
  (1 : Z) ≠ 2
  ∧ (NP_GetValue 1 2 0 9 0 1 100 ∅).1 = 0
  ∧ (NP_GetValue 1 2 0 9 0 1 100 ∅).2 !! 100 =
      Some (Literal "Simple Get Plugin")
  ∧ (NP_GetValue 1 2 0 9 0 2 100 ∅).1 = 0
  ∧ (NP_GetValue 1 2 0 9 0 2 100 ∅).2 !! 100 =
      Some (Literal "Connects the Simple Get extesion to the download managers")
  ∧ (3 : Z) ≠ 1 ∧ (3 : Z) ≠ 2
  ∧ (NP_GetValue 1 2 0 9 0 3 100 ∅).1 = 9.
Proof.
  assert (H12 : (1 : Z) ≠ 2) by discriminate.
  assert (H31 : (3 : Z) ≠ 1) by discriminate.
  assert (H32 : (3 : Z) ≠ 2) by discriminate.
  destruct (NP_GetValue_metadata 1 2 0 9 H12 0 100 ∅)
    as [(Hn1 & Hn2 & _) [(Hd1 & Hd2 & _) Hother]].
  exact (conj H12 (conj Hn1 (conj Hn2 (conj Hd1 (conj Hd2
           (conj H31 (conj H32 (Hother 3 H31 H32)))))))).
Defined.

Lemma NP_GetValue_invalid_frame_witness :
  (3 : Z) ≠ 1 ∧ (3 : Z) ≠ 2
  ∧ (NP_GetValue 1 2 0 9 0 3 100 {[100 := NULL]}).1 = 9
  ∧ (NP_GetValue 1 2 0 9 0 3 100 {[100 := NULL]}).2 = {[100 := NULL]}
  ∧ (NP_GetValue 1 2 0 9 0 3 100 {[100 := NULL]}).2 !! 100 =
      ({[100 := NULL]} : Memory) !! 100.
Proof.
  assert (H31 : (3 : Z) ≠ 1) by discriminate.
  assert (H32 : (3 : Z) ≠ 2) by discriminate.
  split; [exact H31|]. split; [exact H32|].
  exact (NP_GetValue_invalid_frame 1 2 0 9 0 3 100 {[100 := NULL]} H31 H32).
Defined.

(** C7. [NP_GetMIMEDescription] returns one fixed string whatever the state
    of the memory, which it leaves alone, and the MIME type in it, the
    segment in front of the first ["::"], is
    ["application/x-simplegetplugin"]. *)
Theorem NP_GetMIMEDescription_fixed (m1 m2 : Memory) :
  (NP_GetMIMEDescription m1).1 = (NP_GetMIMEDescription m2).1
  ∧ (NP_GetMIMEDescription m1).2 = m1
  ∧ mime_type (NP_GetMIMEDescription m1).1 =
      Some "application/x-simplegetplugin"
  ∧ (NP_GetMIMEDescription m1).1 =
      Literal ("application/x-simplegetplugin" +:+ "::" +:+
               "Connects the Simple Get extesion to the download managers").
Proof. repeat split. Qed.

(* ===================================================================== *)
(** ** Properties of [Complex] *)
(* ===================================================================== *)

Import ComplexH.

(** C10. A setter followed by its getter gives back the value set and
    leaves the other member alone, and the default constructor gives zero
    for both members. *)
Theorem Complex_set_get (c : Complex) (v : float) :
  (real (set_real v c) = v
   ∧ imaginary (set_real v c) = imaginary c)
  ∧ (imaginary (set_imaginary v c) = v
     ∧ real (set_imaginary v c) = real c)
  ∧ (real Complex_default = zero_f
     ∧ imaginary Complex_default = zero_f
     ∧ SFeqb (real Complex_default) (S754_zero false) = true
     ∧ SFeqb (imaginary Complex_default) (S754_zero false) = true).
Proof. repeat split. Qed.

(* ===================================================================== *)
(** ** Further properties of [callApplication] *)
(* ===================================================================== *)

Lemma string_app_assoc (s1 s2 s3 : string) :
  (s1 +:+ s2) +:+ s3 = s1 +:+ s2 +:+ s3.
Proof.
  induction s1 as [|c s1 IH]; [reflexivity|].
  change ((String c s1 +:+ s2) +:+ s3) with (String c ((s1 +:+ s2) +:+ s3)).
  now rewrite IH.
Qed.

(** The array [c_str] hands out for a string with an embedded NUL reads
    back as the part in front of the first NUL. *)
Lemma read_c_str_truncated (s1 s2 : string) :
  nul_free s1 = true →
  read_c_string (c_str (s1 +:+ String NUL s2)) = s1.
Proof.
  unfold c_str.
  induction s1 as [|c s1 IH]; intros Hfree.
  - reflexivity.
  - change (String c s1 +:+ String NUL s2)
      with (String c (s1 +:+ String NUL s2)).
    cbn [nul_free] in Hfree. apply andb_prop in Hfree as [Hc Hs1].
    cbn [list_ascii_of_string app read_c_string].
    destruct (Ascii.eqb c NUL); [discriminate Hc|].
    now rewrite (IH Hs1).
Qed.

(** X1. On a build that defines none of [OS_WINDOWS], [OS_LINUX] and
    [OS_MACOSX], [callApplication] calls nothing in the operating system:
    it launches no process, and still returns the OK status. *)
Theorem callApplication_other_build_no_call
    (t : Target) (application parameters : string) (w : World) :
  OS_WINDOWS t = false → OS_LINUX t = false → OS_MACOSX t = false →
  calls_made (callApplication t application parameters) w = []
  ∧ (callApplication t application parameters w).2 = w
  ∧ returned (callApplication t application parameters) w = MSG_OK.
Proof.
  intros Hw Hl Hm. unfold returned.
  erewrite calls_made_run by apply callApplication_run.
  rewrite callApplication_run, Hw, Hl, Hm. cbn.
  rewrite app_nil_r. now destruct w.
Qed.

Lemma callApplication_other_build_no_call_witness :
  calls_made
    (callApplication (mkTarget false false false) "firefox" "-url x")
    (fresh_world 0) = []
  ∧ (callApplication (mkTarget false false false) "firefox" "-url x"
       (fresh_world 0)).2 = fresh_world 0
  ∧ returned
      (callApplication (mkTarget false false false) "firefox" "-url x")
      (fresh_world 0) = MSG_OK.
Proof.
  apply (callApplication_other_build_no_call (mkTarget false false false)
           "firefox" "-url x" (fresh_world 0)); reflexivity.
Defined.

(** [posix_command_read] at the scenario of the specification. *)
Lemma posix_command_read_witness :
  read_c_string <$>
    shell_commands
      (calls_made
         (callApplication linux_target "firefox" "-url http://example.com")
         (fresh_world 0)) =
  ["firefox -url http://example.com &"].
Proof.
  apply (posix_command_read linux_target "firefox" "-url http://example.com"
           (fresh_world 0)).
  - split; reflexivity.
  - reflexivity.
  - reflexivity.
Defined.

(** X3. On a build for Windows alone, when neither argument has an embedded
    NUL, process creation reads the application as the module name and
    [" " + parameters] as the command line. *)
Theorem windows_arguments_read
    (t : Target) (application parameters : string) (w : World) :
  OS_WINDOWS t = true → OS_LINUX t || OS_MACOSX t = false →
  nul_free application = true → nul_free parameters = true →
  read_c_string <$>
    os_arguments (calls_made (callApplication t application parameters) w) =
  [application; " " +:+ parameters].
Proof.
  intros Hw Hp Ha Hparams. rewrite calls_made_windows by assumption.
  cbn [os_arguments flat_map app fmap list_fmap].
  rewrite !read_c_str; [reflexivity | | assumption].
  now rewrite nul_free_append, Hparams.
Qed.

Lemma windows_arguments_read_witness :
  read_c_string <$>
    os_arguments
      (calls_made (callApplication windows_target "notepad.exe" "file.txt")
         (fresh_world 1)) =
  ["notepad.exe"; " file.txt"].
Proof.
  apply (windows_arguments_read windows_target "notepad.exe" "file.txt"
           (fresh_world 1)); reflexivity.
Defined.

(** X4. On a POSIX-family build, a NUL embedded in [parameters] cuts the
    command short: the shell reads the application, a space and the
    parameters up to that NUL, and neither the rest of the parameters nor
    the closing [" &"] that would put the command in the background. *)
Theorem posix_command_truncated
    (t : Target) (application p1 p2 : string) (w : World) :
  posix_family t →
  nul_free application = true → nul_free p1 = true →
  read_c_string <$>
    shell_commands
      (calls_made (callApplication t application (p1 +:+ String NUL p2)) w) =
  [application +:+ " " +:+ p1].
Proof.
  intros [Hw Hp] Ha Hp1. rewrite calls_made_posix by assumption.
  cbn [shell_commands flat_map app fmap list_fmap].
  f_equal.
  assert (Hassoc :
    application +:+ " " +:+ (p1 +:+ String NUL p2) +:+ " &" =
    (application +:+ " " +:+ p1) +:+ String NUL (p2 +:+ " &")).
  { now rewrite !string_app_assoc. }
  rewrite Hassoc. apply read_c_str_truncated.
  now rewrite !nul_free_append, Ha, Hp1.
Qed.

Lemma posix_command_truncated_witness :
  read_c_string <$>
    shell_commands
      (calls_made
         (callApplication linux_target "firefox"
            ("-url a" +:+ String NUL "b"))
         (fresh_world 0)) =
  ["firefox -url a"].
Proof.
  apply (posix_command_truncated linux_target "firefox" "-url a" "b"
           (fresh_world 0)).
  - split; reflexivity.
  - reflexivity.
  - reflexivity.
Defined.

(* ===================================================================== *)
(** ** Further properties of the NPAPI entry points *)
(* ===================================================================== *)

Section NP_GetValue_composition.

Variables NPPVpluginNameString NPPVpluginDescriptionString : NPPVariable.
Variables NPERR_NO_ERROR NPERR_INVALID_PARAM : NPError.

Local Abbreviation GetValue :=
  (NP_GetValue NPPVpluginNameString NPPVpluginDescriptionString
     NPERR_NO_ERROR NPERR_INVALID_PARAM).

(** What one call does to the memory, by the variable asked for. *)
Lemma NP_GetValue_memory instance variable value (m : Memory) :
  (GetValue instance variable value m).2 =
  if decide (variable = NPPVpluginNameString) then
    <[value := Literal "Simple Get Plugin"]> m
  else if decide (variable = NPPVpluginDescriptionString) then
    <[value :=
        Literal "Connects the Simple Get extesion to the download managers"]>
      m
  else m.
Proof. unfold NP_GetValue, store. now repeat case_decide. Qed.

(** X5. The status tells the host whether the cell was written, as long as
    the two error codes differ: on [NPERR_NO_ERROR] the cell [value] points
    at holds a pointer to one of the two strings, never a null pointer; on
    any other status the memory is what it was. *)
Theorem NP_GetValue_status_sound
    (instance : NPP) (variable : NPPVariable) (value : Z) (m : Memory) :
  NPERR_NO_ERROR ≠ NPERR_INVALID_PARAM →
  ((GetValue instance variable value m).1 = NPERR_NO_ERROR →
   (GetValue instance variable value m).2 !! value =
     Some (Literal "Simple Get Plugin")
   ∨ (GetValue instance variable value m).2 !! value =
       Some (Literal
               "Connects the Simple Get extesion to the download managers"))
  ∧ ((GetValue instance variable value m).1 ≠ NPERR_NO_ERROR →
     (GetValue instance variable value m).2 = m).
Proof.
  intros Hcodes. unfold NP_GetValue, store.
  repeat case_decide; cbn [fst snd]; split; intros Hstatus.
  - left. apply lookup_insert_eq.
  - now destruct Hstatus.
  - right. apply lookup_insert_eq.
  - now destruct Hstatus.
  - now destruct Hcodes.
  - reflexivity.
Qed.

(** X6. A query that succeeds overwrites what an earlier query stored
    through the same pointer: the memory after the two calls is the memory
    after the second one alone. *)
Theorem NP_GetValue_last_query_wins
    (i1 i2 : NPP) (v1 v2 : NPPVariable) (value : Z) (m : Memory) :
  v2 = NPPVpluginNameString ∨ v2 = NPPVpluginDescriptionString →
  (GetValue i2 v2 value (GetValue i1 v1 value m).2).2 =
  (GetValue i2 v2 value m).2.
Proof.
  intros Hvalid. rewrite !NP_GetValue_memory.
  repeat case_decide; try reflexivity; try apply insert_insert_eq.
  all: now destruct Hvalid.
Qed.

(** X7. Queries through different pointers do not interfere: in either
    order they leave the same memory. *)
Theorem NP_GetValue_queries_commute
    (i1 i2 : NPP) (v1 v2 : NPPVariable) (value1 value2 : Z) (m : Memory) :
  value1 ≠ value2 →
  (GetValue i2 v2 value2 (GetValue i1 v1 value1 m).2).2 =
  (GetValue i1 v1 value1 (GetValue i2 v2 value2 m).2).2.
Proof.
  intros Hptr. rewrite !NP_GetValue_memory.
  repeat case_decide; try reflexivity; now apply insert_insert_ne.
Qed.

(** X8. The two entry points agree on the description: the description
    part of what [NP_GetMIMEDescription] returns is the string
    [NP_GetValue] stores for [NPPVpluginDescriptionString]. *)
Theorem NP_descriptions_agree
    (instance : NPP) (value : Z) (m : Memory) :
  NPPVpluginNameString ≠ NPPVpluginDescriptionString →
  ∃ description : string,
    mime_description (NP_GetMIMEDescription m).1 = Some description
    ∧ (GetValue instance NPPVpluginDescriptionString value m).2 !! value =
        Some (Literal description).
Proof.
  intros Hdistinct.
  exists "Connects the Simple Get extesion to the download managers".
  split; [reflexivity|].
  rewrite NP_GetValue_memory.
  rewrite decide_False by (intros Heq; now apply Hdistinct).
  rewrite decide_True by reflexivity.
  apply lookup_insert_eq.
Qed.

End NP_GetValue_composition.

(** These properties at the values of [<npapi.h>]. *)
Lemma NP_GetValue_status_sound_witness :
  (0 : Z) ≠ 9
  ∧ (NP_GetValue 1 2 0 9 0 1 100 ∅).1 = 0
  ∧ ((NP_GetValue 1 2 0 9 0 1 100 ∅).2 !! 100 =
       Some (Literal "Simple Get Plugin")
     ∨ (NP_GetValue 1 2 0 9 0 1 100 ∅).2 !! 100 =
         Some (Literal
                 "Connects the Simple Get extesion to the download managers"))
  ∧ (NP_GetValue 1 2 0 9 0 3 100 {[100 := NULL]}).1 ≠ 0
  ∧ (NP_GetValue 1 2 0 9 0 3 100 {[100 := NULL]}).2 = {[100 := NULL]}.
Proof.
  assert (H09 : (0 : Z) ≠ 9) by discriminate.
  assert (Hok : (NP_GetValue 1 2 0 9 0 1 100 ∅).1 = 0) by reflexivity.
  assert (Herr : (NP_GetValue 1 2 0 9 0 3 100 {[100 := NULL]}).1 ≠ 0)
    by discriminate.
  exact (conj H09 (conj Hok (conj
    (proj1 (NP_GetValue_status_sound 1 2 0 9 0 1 100 ∅ H09) Hok)
    (conj Herr
       (proj2 (NP_GetValue_status_sound 1 2 0 9 0 3 100 {[100 := NULL]} H09)
          Herr))))).
Defined.

Lemma NP_GetValue_last_query_wins_witness :
  ((2 : Z) = 1 ∨ (2 : Z) = 2)
  ∧ (NP_GetValue 1 2 0 9 0 2 100 (NP_GetValue 1 2 0 9 0 1 100 ∅).2).2 =
    (NP_GetValue 1 2 0 9 0 2 100 ∅).2.
Proof.
  assert (Hvalid : (2 : Z) = 1 ∨ (2 : Z) = 2) by (right; reflexivity).
  exact (conj Hvalid
           (NP_GetValue_last_query_wins 1 2 0 9 0 0 1 2 100 ∅ Hvalid)).
Defined.

Lemma NP_GetValue_queries_commute_witness :
  (100 : Z) ≠ 200
  ∧ (NP_GetValue 1 2 0 9 0 2 200 (NP_GetValue 1 2 0 9 0 1 100 ∅).2).2 =
    (NP_GetValue 1 2 0 9 0 1 100 (NP_GetValue 1 2 0 9 0 2 200 ∅).2).2.
Proof.
  assert (Hptr : (100 : Z) ≠ 200) by discriminate.
  exact (conj Hptr
           (NP_GetValue_queries_commute 1 2 0 9 0 0 1 2 100 200 ∅ Hptr)).
Defined.

Lemma NP_descriptions_agree_witness :
  (1 : Z) ≠ 2
  ∧ ∃ description : string,
      mime_description (NP_GetMIMEDescription ∅).1 = Some description
      ∧ (NP_GetValue 1 2 0 9 0 2 100 ∅).2 !! 100 =
          Some (Literal description).
Proof.
  assert (H12 : (1 : Z) ≠ 2) by discriminate.
  exact (conj H12 (NP_descriptions_agree 1 2 0 9 0 100 ∅ H12)).
Defined.

(* ===================================================================== *)
(** ** Further properties of [Complex] *)
(* ===================================================================== *)

Section float_arithmetic.

Variables p e : Z.

Lemma SFadd_comm (x y : spec_float) : SFadd p e x y = SFadd p e y x.
Proof.
  destruct x as [[]|[]| |sx mx ex], y as [[]|[]| |sy my ey];
    try reflexivity.
  unfold SFadd. cbv zeta.
  rewrite (Z.min_comm ey ex). f_equal. apply Z.add_comm.
Qed.

Lemma SFmul_comm (x y : spec_float) : SFmul p e x y = SFmul p e y x.
Proof.
  destruct x as [sx|sx| |sx mx ex], y as [sy|sy| |sy my ey];
    try reflexivity; unfold SFmul; rewrite (xorb_comm sy sx);
    try reflexivity.
  now rewrite (Pos.mul_comm my mx), (Z.add_comm ey ex).
Qed.

(** Adding a positive zero on the right changes nothing but a negative
    zero. *)
Lemma SFadd_zero_r (x : spec_float) :
  SFadd p e x (S754_zero false) = x ↔ x ≠ S754_zero true.
Proof.
  destruct x as [[]|[]| |sx mx ex]; cbn; split; congruence.
Qed.

(** Rounding keeps the sign it is given, or fails with NaN. *)
Lemma binary_round_aux_sign (s : bool) (m ex : Z) (l : location) :
  sign_bit (binary_round_aux p e s m ex l) = Some s
  ∨ sign_bit (binary_round_aux p e s m ex l) = None.
Proof.
  unfold binary_round_aux.
  destruct (shr_fexp p e m ex l) as [mrs' e'].
  destruct (shr_fexp p e _ e' loc_Exact) as [mrs'' e''].
  destruct (shr_m mrs'') as [|m'|m'];
    [left | destruct (Z.leb e'' (Z.sub e p)); left | right]; reflexivity.
Qed.

Lemma binary_round_aux_not_negative (m ex : Z) (l : location) :
  sign_bit (binary_round_aux p e false m ex l) ≠ Some true.
Proof.
  destruct (binary_round_aux_sign false m ex l) as [H | H];
    rewrite H; discriminate.
Qed.

Lemma SFmul_self_not_negative (x : spec_float) :
  sign_bit (SFmul p e x x) ≠ Some true.
Proof.
  destruct x as [[]|[]| |sx mx ex]; try discriminate.
  unfold SFmul. rewrite xorb_nilpotent.
  apply binary_round_aux_not_negative.
Qed.

Lemma SFadd_not_negative (x y : spec_float) :
  sign_bit x ≠ Some true → sign_bit y ≠ Some true →
  sign_bit (SFadd p e x y) ≠ Some true.
Proof.
  destruct x as [[]|[]| |[] mx ex], y as [[]|[]| |[] my ey];
    intros Hx Hy; try discriminate; try (now destruct Hx);
    try (now destruct Hy).
  unfold SFadd, cond_Zopp, binary_normalize. cbv zeta.
  change (Z.add (Zpos ?a) (Zpos ?b)) with (Zpos (a + b)).
  unfold binary_round.
  destruct (shl_align _ _ _) as [mz ez].
  apply binary_round_aux_not_negative.
Qed.

Lemma SFsqrt_not_negative (x : spec_float) :
  sign_bit x ≠ Some true → sign_bit (SFsqrt p e x) ≠ Some true.
Proof.
  destruct x as [[]|[]| |[] mx ex]; intros Hx; try discriminate;
    try (now destruct Hx).
  unfold SFsqrt.
  destruct (SFsqrt_core_binary p e (Zpos mx) ex) as [[mz ez] lz].
  apply binary_round_aux_not_negative.
Qed.

(** Rounding a mantissa that is not negative never fails with NaN: the
    shifts and the rounding to nearest keep the mantissa from going
    negative. *)
Lemma shr_1_nonneg (mrs : shr_record) :
  0 ≤ shr_m mrs → 0 ≤ shr_m (shr_1 mrs).
Proof.
  destruct mrs as [m r s]. destruct m as [|[q|q|]|q]; cbn; lia.
Qed.

Lemma iter_pos_shr_1_nonneg (n : positive) :
  ∀ mrs, 0 ≤ shr_m mrs → 0 ≤ shr_m (SpecFloat.iter_pos shr_1 n mrs).
Proof.
  induction n as [n IH|n IH|]; intros mrs Hm; cbn [SpecFloat.iter_pos].
  - apply IH, IH, shr_1_nonneg, Hm.
  - apply IH, IH, Hm.
  - apply shr_1_nonneg, Hm.
Qed.

Lemma shr_fexp_nonneg (m ex : Z) (l : location) :
  0 ≤ m → 0 ≤ shr_m (shr_fexp p e m ex l).1.
Proof.
  intros Hm. unfold shr_fexp, shr.
  assert (Hrec : 0 ≤ shr_m (shr_record_of_loc m l))
    by (now destruct l as [|[]]).
  destruct (Z.sub _ _); cbn [fst]; try assumption.
  now apply iter_pos_shr_1_nonneg.
Qed.

Lemma round_nearest_even_nonneg (m : Z) (l : location) :
  0 ≤ m → 0 ≤ round_nearest_even m l.
Proof.
  intros Hm. destruct l as [|[]]; cbn; try lia.
  destruct (Z.even m); lia.
Qed.

Lemma binary_round_aux_not_nan (s : bool) (m ex : Z) (l : location) :
  0 ≤ m → binary_round_aux p e s m ex l ≠ S754_nan.
Proof.
  intros Hm. unfold binary_round_aux.
  pose proof (shr_fexp_nonneg m ex l Hm) as H1.
  destruct (shr_fexp p e m ex l) as [mrs' e']. cbn [fst] in H1.
  pose proof (shr_fexp_nonneg _ e' loc_Exact
                (round_nearest_even_nonneg _ (loc_of_shr_record mrs') H1))
    as H2.
  destruct (shr_fexp p e _ e' loc_Exact) as [mrs'' e'']. cbn [fst] in H2.
  destruct (shr_m mrs'') as [|m'|m']; [discriminate | | lia].
  destruct (Z.leb e'' (Z.sub e p)); discriminate.
Qed.

Lemma SFmul_self_nan (x : spec_float) :
  SFmul p e x x = S754_nan ↔ x = S754_nan.
Proof.
  destruct x as [sx|sx| |sx mx ex]; cbn [SFmul]; split;
    try discriminate; try reflexivity.
  intros Hnan. now apply binary_round_aux_not_nan in Hnan.
Qed.

Lemma SFadd_not_negative_nan (x y : spec_float) :
  sign_bit x ≠ Some true → sign_bit y ≠ Some true →
  SFadd p e x y = S754_nan ↔ x = S754_nan ∨ y = S754_nan.
Proof.
  destruct x as [[]|[]| |[] mx ex], y as [[]|[]| |[] my ey];
    intros Hx Hy; try (now destruct Hx); try (now destruct Hy);
    try (split; [discriminate | intros [|]; discriminate]);
    try (split; [intros _; auto | reflexivity]).
  split; [|intros [|]; discriminate].
  unfold SFadd, cond_Zopp, binary_normalize. cbv zeta.
  change (Z.add (Zpos ?a) (Zpos ?b)) with (Zpos (a + b)).
  unfold binary_round.
  destruct (shl_align _ _ _) as [mz ez].
  intros Hnan. now apply binary_round_aux_not_nan in Hnan.
Qed.

Lemma SFsqrt_not_negative_nan (x : spec_float) :
  sign_bit x ≠ Some true →
  SFsqrt p e x = S754_nan ↔ x = S754_nan.
Proof.
  destruct x as [[]|[]| |[] mx ex]; intros Hx;
    try (now destruct Hx); try (split; [discriminate | discriminate]);
    try (split; reflexivity).
  split; [|discriminate].
  unfold SFsqrt, SFsqrt_core_binary. cbv zeta.
  pose proof (Z.sqrtrem_sqrt
    match Z.sub ex (Z.mul 2
            (Z.min (fexp p e (Z.div2 (Z.add (Z.add (Zdigits2 (Zpos mx)) ex) 1)))
               (Z.div2 ex))) with
    | Zpos _ =>
        Z.shiftl (Zpos mx)
          (Z.sub ex (Z.mul 2
             (Z.min (fexp p e (Z.div2 (Z.add (Z.add (Zdigits2 (Zpos mx)) ex) 1)))
                (Z.div2 ex))))
    | Z0 => Zpos mx
    | Zneg _ => Z0
    end) as Hq.
  destruct (Z.sqrtrem _) as [q r]. cbn [fst] in Hq.
  intros Hnan. apply binary_round_aux_not_nan in Hnan; [easy|].
  rewrite Hq. apply Z.sqrt_nonneg.
Qed.

End float_arithmetic.

Lemma SFltb_zero_not_negative (x : spec_float) :
  sign_bit x ≠ Some true → SFltb x (S754_zero false) = false.
Proof.
  destruct x as [[]|[]| |[] mx ex]; intros Hx; try reflexivity;
    now destruct Hx.
Qed.

Lemma norm2_sign (c : Complex) : sign_bit (norm2 c) ≠ Some true.
Proof.
  unfold norm2, fadd, fmul.
  apply SFadd_not_negative; apply SFmul_self_not_negative.
Qed.

(** The operations on small integers: [(1 + 2i) + (3 + 4i) = 4 + 6i],
    [(1 + 2i) (3 + 4i) = -5 + 10i], and the norm of [3 + 4i] is [5]. *)
Example add_1_2_3_4 :
  add (Complex_of (float_of_Z 1) (float_of_Z 2))
      (Complex_of (float_of_Z 3) (float_of_Z 4)) =
  Complex_of (float_of_Z 4) (float_of_Z 6).
Proof. vm_compute. reflexivity. Qed.

Example mul_1_2_3_4 :
  mul (Complex_of (float_of_Z 1) (float_of_Z 2))
      (Complex_of (float_of_Z 3) (float_of_Z 4)) =
  Complex_of (float_of_Z (-5)) (float_of_Z 10).
Proof. vm_compute. reflexivity. Qed.

Example norm_3_4 :
  norm2 (Complex_of (float_of_Z 3) (float_of_Z 4)) = float_of_Z 25
  ∧ norm (Complex_of (float_of_Z 3) (float_of_Z 4)) = float_of_Z 5.
Proof. vm_compute. split; reflexivity. Qed.

(** X9. The two setters are independent of each other and the last value
    set is the one kept: setting both members, in either order, gives the
    object the two-argument constructor builds, and setting a member twice
    is setting it to the second value. *)
Theorem Complex_setters_compose (c : Complex) (u v u' v' : float) :
  set_real u (set_imaginary v c) = Complex_of u v
  ∧ set_imaginary v (set_real u c) = Complex_of u v
  ∧ set_real u (set_real u' c) = set_real u c
  ∧ set_imaginary v (set_imaginary v' c) = set_imaginary v c
  ∧ Complex_of (real c) (imaginary c) = c.
Proof. destruct c as [r i]. repeat split. Qed.

(** X10. [add] is commutative: [a.add(b)] and [b.add(a)] are the same
    complex number, whatever the members are (zeros of either sign,
    infinities and NaN included). *)
Theorem Complex_add_comm (a b : Complex) : add a b = add b a.
Proof.
  unfold add, fadd.
  now rewrite (SFadd_comm _ _ (real_ a)), (SFadd_comm _ _ (imaginary_ a)).
Qed.

(** X11. [mul] is commutative when every product and sum is rounded on
    its own: [a.mul(b)] and [b.mul(a)] are the same complex number. *)
Theorem Complex_mul_comm (a b : Complex) : mul a b = mul b a.
Proof.
  unfold mul, fadd, fsub, fmul.
  rewrite (SFmul_comm _ _ (real_ a) (real_ b)).
  rewrite (SFmul_comm _ _ (imaginary_ a) (imaginary_ b)).
  rewrite (SFmul_comm _ _ (real_ a) (imaginary_ b)).
  rewrite (SFmul_comm _ _ (imaginary_ a) (real_ b)).
  now rewrite (SFadd_comm _ _ (SFmul _ _ (imaginary_ b) (real_ a))).
Qed.

(** X12. Adding the default-constructed [Complex] gives back the same
    complex number exactly when neither member is a negative zero: a
    negative zero comes back as a positive zero. *)
Theorem Complex_add_default (c : Complex) :
  add c Complex_default = c
  ↔ real c ≠ S754_zero true ∧ imaginary c ≠ S754_zero true.
Proof.
  destruct c as [r i]. unfold add, Complex_default, Complex_of, real,
    imaginary, fadd, zero_f. cbn [real_ imaginary_].
  split.
  - intros [= Hr Hi]. split; now apply (SFadd_zero_r prec emax).
  - intros [Hr Hi]. f_equal; now apply SFadd_zero_r.
Qed.

(** X13. [norm2] is never negative: whatever the members are, the result
    is NaN or has a clear sign bit (it is not even a negative zero), so
    that [c.norm2() < 0] is false. *)
Theorem Complex_norm2_not_negative (c : Complex) :
  sign_bit (norm2 c) ≠ Some true
  ∧ SFltb (norm2 c) zero_f = false.
Proof.
  split; [|apply SFltb_zero_not_negative]; apply norm2_sign.
Qed.

(** X14. [norm] is never negative either: the square root is taken of a
    value that is not negative, so the result is NaN or has a clear sign
    bit, and [c.norm() < 0] is false. *)
Theorem Complex_norm_not_negative (c : Complex) :
  sign_bit (norm c) ≠ Some true
  ∧ SFltb (norm c) zero_f = false.
Proof.
  assert (Hsign : sign_bit (norm c) ≠ Some true).
  { unfold norm, sqrtf. apply SFsqrt_not_negative, norm2_sign. }
  split; [exact Hsign | now apply SFltb_zero_not_negative].
Qed.

Lemma norm2_nan (c : Complex) :
  norm2 c = S754_nan ↔ real_ c = S754_nan ∨ imaginary_ c = S754_nan.
Proof.
  unfold norm2, fadd, fmul.
  rewrite SFadd_not_negative_nan by apply SFmul_self_not_negative.
  now rewrite !SFmul_self_nan.
Qed.

(** X15. [norm2] is NaN exactly when a member is NaN: squares that
    overflow add up to an infinity, and no other operand produces a NaN. *)
Theorem Complex_norm2_nan (c : Complex) :
  norm2 c = S754_nan ↔ real c = S754_nan ∨ imaginary c = S754_nan.
Proof. apply norm2_nan. Qed.

(** X16. [norm] is NaN exactly when a member is NaN: the square root is
    never taken of a negative number. *)
Theorem Complex_norm_nan (c : Complex) :
  norm c = S754_nan ↔ real c = S754_nan ∨ imaginary c = S754_nan.
Proof.
  unfold norm, sqrtf.
  rewrite SFsqrt_not_negative_nan by apply norm2_sign.
  apply norm2_nan.
Qed.
